(** * DebouncedButton: the debouncing and gesture state machine

    A shallow embedding of [src/DebouncedButton.h] and
    [src/DebouncedButton.cpp].  The class is a record of its data
    members; [update] threads the record explicitly and returns the
    recognised [Input] together with the mutated instance.  The
    [uint32_t] timestamps are integers in [0, 2^32) and the unsigned
    subtractions of the source are written with their wrap-around. *)

From Stdlib Require Import ZArith List Bool Lia.
Import ListNotations.
Open Scope Z_scope.

(** ** Unsigned 32-bit arithmetic *)

Module U32.

Definition modulus : Z := 2 ^ 32.

Definition wrap (z : Z) : Z := z mod modulus.

(** [a - b] on two [uint32_t] operands. *)
Definition sub (a b : Z) : Z := wrap (a - b).

(** [max(a, b)] on two [uint32_t] operands. *)
Definition max (a b : Z) : Z := if a <? b then b else a.

Definition in_range (z : Z) : Prop := 0 <= z < modulus.

Definition in_rangeb (z : Z) : bool := (0 <=? z) && (z <? modulus).

End U32.

(** ** The class [DebouncedButton] *)

Module DebouncedButton.

(** [enum Input]. *)
Inductive Input : Set :=
| NONE
| CLICK
| DOUBLE_CLICK
| LONG_PRESS
| CLICK_AND_LONG_PRESS
| DOUBLE_CLICK_AND_LONG_PRESS
| RELEASE.

(** [enum State]. *)
Inductive State : Set :=
| IDLE
| PRESSED
| PRESSED_PENDING
| CLICKED_PENDING
| CLICKED_PRESSED_PENDING
| DOUBLE_CLICKED_PENDING
| DOUBLE_CLICKED_PRESSED_PENDING.

Definition DEBOUNCE_MS : Z := 20.
Definition CLICKED_CUTOFF_MS : Z := 150.
Definition DOUBLE_CLICK_TIMEOUT_MS : Z := 150.

(** The data members, in declaration order. *)
Record t : Set := mk {
  _pressed_state : bool;
  _state : State;
  _prev_reading : bool;
  _debounced_reading : bool;
  _last_reading_change_tm : Z;
  _last_change_tm : Z;
  _prev_last_change_tm : Z
}.

(** The constructor: the default member initialisers of the header,
    then [_prev_reading = !pressed_state]. *)
Definition DebouncedButton (pressed_state : bool) : t :=
  {| _pressed_state := pressed_state;
     _state := IDLE;
     _prev_reading := negb pressed_state;
     _debounced_reading := false;
     _last_reading_change_tm := 0;
     _last_change_tm := 0;
     _prev_last_change_tm := 0 |}.

(** [state()]. *)
Definition state (b : t) : bool :=
  Bool.eqb (_debounced_reading b) (_pressed_state b).

(** [duration(tm)]: [max(uint32_t(0), tm - _last_change_tm)]. *)
Definition duration (b : t) (tm : Z) : Z :=
  U32.max 0 (U32.sub tm (_last_change_tm b)).

(** [prev_duration(tm)]. *)
Definition prev_duration (b : t) (tm : Z) : Z :=
  U32.sub (_last_change_tm b) (_prev_last_change_tm b).

(** [reset_duration()]. *)
Definition reset_duration (b : t) : t :=
  {| _pressed_state := _pressed_state b;
     _state := _state b;
     _prev_reading := _prev_reading b;
     _debounced_reading := _debounced_reading b;
     _last_reading_change_tm := _last_reading_change_tm b;
     _last_change_tm := 0;
     _prev_last_change_tm := 0 |}.

(** Assignment to [_state] alone. *)
Definition set_state (st : State) (b : t) : t :=
  {| _pressed_state := _pressed_state b;
     _state := st;
     _prev_reading := _prev_reading b;
     _debounced_reading := _debounced_reading b;
     _last_reading_change_tm := _last_reading_change_tm b;
     _last_change_tm := _last_change_tm b;
     _prev_last_change_tm := _prev_last_change_tm b |}.

(** The first statement of [update], [if (!_pressed_state) reading =
    !reading;]: the value of [reading] in the rest of the function. *)
Definition normalize (pressed_state reading : bool) : bool :=
  if negb pressed_state then negb reading else reading.

(** [update(reading, tm)].  The caller passes a [uint32_t]: [tm] lies
    in [0, 2^32) and is stored as it comes. *)
Definition update (b : t) (reading : bool) (tm : Z)
  : Input * t :=
  let reading := normalize (_pressed_state b) reading in
  if negb (Bool.eqb (_prev_reading b) reading) then
    (* the reading has changed: begin a new debounce period *)
    (NONE,
     {| _pressed_state := _pressed_state b;
        _state := _state b;
        _prev_reading := reading;
        _debounced_reading := _debounced_reading b;
        _last_reading_change_tm := tm;
        _last_change_tm := _last_change_tm b;
        _prev_last_change_tm := _prev_last_change_tm b |})
  else
    let reading_duration := U32.sub tm (_last_reading_change_tm b) in
    if negb (Bool.eqb (_debounced_reading b) reading) then
      if reading_duration <? DEBOUNCE_MS then (NONE, b)
      else
        (* the new reading has passed the debounce period *)
        let '(input, st) :=
          match _state b with
          | IDLE => (NONE, PRESSED_PENDING)
          | PRESSED_PENDING => (NONE, CLICKED_PENDING)
          | PRESSED => (RELEASE, IDLE)
          | CLICKED_PENDING => (NONE, CLICKED_PRESSED_PENDING)
          | CLICKED_PRESSED_PENDING => (NONE, DOUBLE_CLICKED_PENDING)
          | DOUBLE_CLICKED_PENDING => (NONE, DOUBLE_CLICKED_PRESSED_PENDING)
          | DOUBLE_CLICKED_PRESSED_PENDING => (DOUBLE_CLICK, CLICKED_PENDING)
          end in
        (input,
         {| _pressed_state := _pressed_state b;
            _state := st;
            _prev_reading := _prev_reading b;
            _debounced_reading := reading;
            _last_reading_change_tm := _last_reading_change_tm b;
            _last_change_tm := tm;
            _prev_last_change_tm := _last_change_tm b |})
    else
      match _state b with
      | CLICKED_PENDING =>
          if DOUBLE_CLICK_TIMEOUT_MS <? duration b tm
          then (CLICK, set_state IDLE b) else (NONE, b)
      | PRESSED_PENDING =>
          if CLICKED_CUTOFF_MS <=? duration b tm
          then (LONG_PRESS, set_state PRESSED b) else (NONE, b)
      | CLICKED_PRESSED_PENDING =>
          if CLICKED_CUTOFF_MS <=? duration b tm
          then (CLICK_AND_LONG_PRESS, set_state PRESSED b) else (NONE, b)
      | DOUBLE_CLICKED_PENDING =>
          if CLICKED_CUTOFF_MS <=? duration b tm
          then (DOUBLE_CLICK, set_state IDLE b) else (NONE, b)
      | DOUBLE_CLICKED_PRESSED_PENDING =>
          if CLICKED_CUTOFF_MS <=? duration b tm
          then (DOUBLE_CLICK_AND_LONG_PRESS, set_state PRESSED b) else (NONE, b)
      | IDLE | PRESSED => (NONE, b)
      end.

End DebouncedButton.

Import DebouncedButton.

(** ** Scripts of calls

    A script is the list of [(reading, tm)] arguments of successive
    calls of [update] on one instance, in the order
    [TestingScript::execute] of the test suite issues them. *)

Definition call : Set := (bool * Z)%type.

Fixpoint run (b : t) (script : list call) : list Input * t :=
  match script with
  | [] => ([], b)
  | (reading, tm) :: rest =>
      let '(input, b1) := update b reading tm in
      let '(inputs, b2) := run b1 rest in
      (input :: inputs, b2)
  end.

Definition outputs (b : t) (script : list call) : list Input :=
  fst (run b script).

Definition final (b : t) (script : list call) : t :=
  snd (run b script).

(** Timestamps are [uint32_t] values and do not decrease from one call
    to the next; [lo] is the timestamp of the call before the script. *)
Fixpoint nondecreasing_from (lo : Z) (script : list call) : bool :=
  match script with
  | [] => true
  | (_, tm) :: rest =>
      (lo <=? tm) && (tm <? U32.modulus) && nondecreasing_from tm rest
  end.

Definition nondecreasing (script : list call) : bool :=
  nondecreasing_from 0 script.

(** ** The two transition tables of the specification *)

(** The table driven by a debounced change. *)
Definition change_table (st : State) : State * Input :=
  match st with
  | IDLE => (PRESSED_PENDING, NONE)
  | PRESSED_PENDING => (CLICKED_PENDING, NONE)
  | PRESSED => (IDLE, RELEASE)
  | CLICKED_PENDING => (CLICKED_PRESSED_PENDING, NONE)
  | CLICKED_PRESSED_PENDING => (DOUBLE_CLICKED_PENDING, NONE)
  | DOUBLE_CLICKED_PENDING => (DOUBLE_CLICKED_PRESSED_PENDING, NONE)
  | DOUBLE_CLICKED_PRESSED_PENDING => (CLICKED_PENDING, DOUBLE_CLICK)
  end.

(** The instance after an accepted debounced change to [reading] at
    [tm], as the specification words it. *)
Definition accept_change (b : t) (reading : bool) (tm : Z) : t :=
  {| _pressed_state := _pressed_state b;
     _state := fst (change_table (_state b));
     _prev_reading := _prev_reading b;
     _debounced_reading := reading;
     _last_reading_change_tm := _last_reading_change_tm b;
     _last_change_tm := tm;
     _prev_last_change_tm := _last_change_tm b |}.

(** The instance after a call that saw the raw reading change to
    [reading] at [tm], as the specification words it. *)
Definition restart_debounce (b : t) (reading : bool) (tm : Z) : t :=
  {| _pressed_state := _pressed_state b;
     _state := _state b;
     _prev_reading := reading;
     _debounced_reading := _debounced_reading b;
     _last_reading_change_tm := tm;
     _last_change_tm := _last_change_tm b;
     _prev_last_change_tm := _prev_last_change_tm b |}.

(** The states in which the button is held down. *)
Definition held (st : State) : bool :=
  match st with
  | PRESSED | PRESSED_PENDING
  | CLICKED_PRESSED_PENDING | DOUBLE_CLICKED_PRESSED_PENDING => true
  | IDLE | CLICKED_PENDING | DOUBLE_CLICKED_PENDING => false
  end.

(** The table driven by the time spent in the current debounced state;
    a state that has no row, or whose condition does not hold, stays. *)
Definition duration_table (st : State) (d : Z) : State * Input :=
  match st with
  | CLICKED_PENDING =>
      if DOUBLE_CLICK_TIMEOUT_MS <? d then (IDLE, CLICK) else (st, NONE)
  | PRESSED_PENDING =>
      if CLICKED_CUTOFF_MS <=? d then (PRESSED, LONG_PRESS) else (st, NONE)
  | CLICKED_PRESSED_PENDING =>
      if CLICKED_CUTOFF_MS <=? d then (PRESSED, CLICK_AND_LONG_PRESS)
      else (st, NONE)
  | DOUBLE_CLICKED_PENDING =>
      if CLICKED_CUTOFF_MS <=? d then (IDLE, DOUBLE_CLICK) else (st, NONE)
  | DOUBLE_CLICKED_PRESSED_PENDING =>
      if CLICKED_CUTOFF_MS <=? d then (PRESSED, DOUBLE_CLICK_AND_LONG_PRESS)
      else (st, NONE)
  | IDLE | PRESSED => (st, NONE)
  end.

(** ** One call as a relation

    The algorithm of the specification (section 4.1, steps 1 to 6), one
    rule for each way a call can end; [n] is the normalized reading. *)
Inductive Step (b : t) (reading : bool) (tm : Z) : Input -> t -> Prop :=
| Step_raw_change n :
    n = normalize (_pressed_state b) reading ->
    _prev_reading b <> n ->
    Step b reading tm NONE (restart_debounce b n tm)
| Step_bouncing n :
    n = normalize (_pressed_state b) reading ->
    _prev_reading b = n ->
    _debounced_reading b <> n ->
    U32.sub tm (_last_reading_change_tm b) < DEBOUNCE_MS ->
    Step b reading tm NONE b
| Step_accepted n :
    n = normalize (_pressed_state b) reading ->
    _prev_reading b = n ->
    _debounced_reading b <> n ->
    DEBOUNCE_MS <= U32.sub tm (_last_reading_change_tm b) ->
    Step b reading tm (snd (change_table (_state b))) (accept_change b n tm)
| Step_dwell n :
    n = normalize (_pressed_state b) reading ->
    _prev_reading b = n ->
    _debounced_reading b = n ->
    Step b reading tm
      (snd (duration_table (_state b) (duration b tm)))
      (set_state (fst (duration_table (_state b) (duration b tm))) b).

Inductive Replay : t -> list call -> list Input -> t -> Prop :=
| Replay_nil b : Replay b [] [] b
| Replay_cons b reading tm input b1 rest inputs b2 :
    Step b reading tm input b1 ->
    Replay b1 rest inputs b2 ->
    Replay b ((reading, tm) :: rest) (input :: inputs) b2.

(** ** The raw signal seen by the debounce filter *)

(** A normalized level and the time it was sampled. *)
Definition sample : Set := (bool * Z)%type.

Definition normalized (pressed_state : bool) (script : list call)
  : list sample :=
  map (fun c => (normalize pressed_state (fst c), snd c)) script.

(** [constant_since h level t0]: the signal [h] ends with a stretch of
    samples at [level]; the stretch begins with the sample taken at
    [t0], which is a raw change: the sample before it, when there is
    one, is at the other level. *)
Definition constant_since (h : list sample) (level : bool) (t0 : Z) : Prop :=
  exists before after,
    h = before ++ (level, t0) :: after /\
    Forall (fun s => fst s = level) after /\
    (forall before' s, before = before' ++ [s] -> fst s <> level).

(** Every sample at the pressed level comes less than [DEBOUNCE_MS]
    after the raw change that began its stretch; [level] and [t0]
    describe the stretch under way before [h]. *)
Fixpoint short_presses_from (level : bool) (t0 : Z) (h : list sample)
  : bool :=
  match h with
  | [] => true
  | (l, tm) :: h' =>
      if Bool.eqb level l
      then (negb l || (tm - t0 <? DEBOUNCE_MS))
           && short_presses_from level t0 h'
      else short_presses_from l tm h'
  end.

(** On a default instance the readings are the levels, and no press
    is under way before the first call. *)
Definition short_presses (script : list call) : bool :=
  short_presses_from false 0 script.

(** The readings alternate with every gap between raw changes below
    [DEBOUNCE_MS]: every call comes less than [DEBOUNCE_MS] after the
    latest raw change before it, at [t0]. *)
Fixpoint alternating_from (level : bool) (t0 : Z) (script : list call)
  : bool :=
  match script with
  | [] => true
  | (r, tm) :: rest =>
      (tm - t0 <? DEBOUNCE_MS)
      && alternating_from r (if Bool.eqb level r then t0 else tm) rest
  end.

(** The first call opens the alternation. *)
Definition alternating (script : list call) : bool :=
  match script with
  | [] => true
  | (r, tm) :: rest => alternating_from r tm rest
  end.

(** Press and release in turn every 19 ms from time 1000, with one
    more sample of the last press a millisecond later. *)
Definition flicker_19ms : list call :=
  [(true, 1000); (false, 1019); (true, 1038); (false, 1057); (true, 1076);
   (false, 1095); (true, 1114); (false, 1133); (true, 1152); (true, 1153)].

(** ** Polarity *)

(** The script with every raw reading inverted. *)
Definition invert (script : list call) : list call :=
  map (fun c => (negb (fst c), snd c)) script.

(** The same instance wired with the other polarity. *)
Definition flip_polarity (b : t) : t :=
  {| _pressed_state := negb (_pressed_state b);
     _state := _state b;
     _prev_reading := _prev_reading b;
     _debounced_reading := _debounced_reading b;
     _last_reading_change_tm := _last_reading_change_tm b;
     _last_change_tm := _last_change_tm b;
     _prev_last_change_tm := _prev_last_change_tm b |}.

(** ** The single-click script *)

(** Press at 0, debounced at 20; release at 160, debounced at 180. *)
Definition press_and_release : list call :=
  [(true, 0); (true, 20); (false, 160); (false, 180)].

(** The released button polled at the times [tms]. *)
Definition polls (tms : list Z) : list call :=
  map (fun tm => (false, tm)) tms.

(** The polls come after the debounced release. *)
Definition after_release (tms : list Z) : bool :=
  forallb (fun tm => (180 <=? tm) && (tm <? U32.modulus)) tms.

(** Strictly increasing poll times, all after [lo]. *)
Fixpoint increasing_from (lo : Z) (tms : list Z) : bool :=
  match tms with
  | [] => true
  | tm :: rest => (lo <? tm) && (tm <? U32.modulus) && increasing_from tm rest
  end.

(** What the polls return: the pending click is delivered by the first
    poll later than 180 + [DOUBLE_CLICK_TIMEOUT_MS]. *)
Fixpoint click_delivery (tms : list Z) : list Input :=
  match tms with
  | [] => []
  | tm :: rest =>
      if 180 + DOUBLE_CLICK_TIMEOUT_MS <? tm
      then CLICK :: map (fun _ => NONE) rest
      else NONE :: click_delivery rest
  end.

(** The claim of the specification: whatever the later polls, [CLICK]
    is returned by the poll at 351 and by no other. *)
Definition click_exactly_at_351 : Prop :=
  forall tms, increasing_from 180 tms = true ->
  forall k tm, nth_error tms k = Some tm ->
    (nth_error (outputs (DebouncedButton true) (press_and_release ++ polls tms))
       (4 + k) = Some CLICK
     <-> tm = 351).

(** ** The rest of the class *)

From Stdlib Require String.
Import String.StringSyntax.
Open Scope string_scope.

(** The integer value of an enumerator of [Input]. *)
Definition Input_value (input : Input) : Z :=
  match input with
  | NONE => 0
  | CLICK => 1
  | DOUBLE_CLICK => 2
  | LONG_PRESS => 3
  | CLICK_AND_LONG_PRESS => 4
  | DOUBLE_CLICK_AND_LONG_PRESS => 5
  | RELEASE => 6
  end.

(** [describe_input(input)]; the argument is the integer the [switch]
    examines, so that the [default] label has its values. *)
Definition describe_input (input : Z) : String.string :=
  match input with
  | 0 => "none"
  | 1 => "click"
  | 2 => "double click"
  | 3 => "long press"
  | 4 => "click and long press"
  | 5 => "double click and long press"
  | 6 => "release"
  | _ => "unknown"
  end.

(** ** Gestures *)

(** The three inputs that report a hold. *)
Definition is_long_press (input : Input) : bool :=
  match input with
  | LONG_PRESS | CLICK_AND_LONG_PRESS | DOUBLE_CLICK_AND_LONG_PRESS => true
  | NONE | CLICK | DOUBLE_CLICK | RELEASE => false
  end.

(** The state in which a hold has been reported. *)
Definition holding (st : State) : bool :=
  match st with
  | PRESSED => true
  | _ => false
  end.

(** Holds and releases come in pairs: a hold is reported only when none
    is under way, [RELEASE] only after a reported hold, and a click or
    double click only when no hold is under way.  [holding] tells
    whether a hold has been reported and not yet released. *)
Fixpoint paired (holding : bool) (inputs : list Input) : bool :=
  match inputs with
  | [] => true
  | input :: rest =>
      match input with
      | NONE => paired holding rest
      | RELEASE => holding && paired false rest
      | CLICK | DOUBLE_CLICK => negb holding && paired false rest
      | LONG_PRESS | CLICK_AND_LONG_PRESS | DOUBLE_CLICK_AND_LONG_PRESS =>
          negb holding && paired true rest
      end
  end.





(** ** Timestamps *)

(** The timestamp of the last call of a script, [lo] when it is empty. *)
Fixpoint last_tm (lo : Z) (script : list call) : Z :=
  match script with
  | [] => lo
  | (_, tm) :: rest => last_tm tm rest
  end.

(** The script on a clock that runs [k] milliseconds ahead, wrapping
    as a [uint32_t] does. *)
Definition shift (k : Z) (script : list call) : list call :=
  map (fun c => (fst c, U32.wrap (snd c + k))) script.

(** [y] is [x + k] on the wrapping clock. *)
Definition ahead (k x y : Z) : Prop := U32.wrap y = U32.wrap (x + k).

(** [b'] is [b] seen on a clock [k] ahead, up to the members [update]
    overwrites before it reads them: [_last_reading_change_tm] while
    the previous and the debounced reading agree, [_last_change_tm] in
    [IDLE] and [PRESSED], and [_prev_last_change_tm] always. *)
Definition tracks (k : Z) (b b' : t) : Prop :=
  _pressed_state b' = _pressed_state b
  /\ _state b' = _state b
  /\ _prev_reading b' = _prev_reading b
  /\ _debounced_reading b' = _debounced_reading b
  /\ (_prev_reading b <> _debounced_reading b ->
      ahead k (_last_reading_change_tm b) (_last_reading_change_tm b'))
  /\ (_state b <> IDLE -> _state b <> PRESSED ->
      ahead k (_last_change_tm b) (_last_change_tm b')).

(** The script begins with a released reading or at time 0. *)
Definition starts_clean (script : list call) : bool :=
  match script with
  | [] => true
  | (reading, tm) :: _ => negb reading || (tm =? 0)
  end.

(** * Properties *)

(** ** Unsigned arithmetic *)

Lemma u32_in_rangeb_spec z : U32.in_rangeb z = true <-> U32.in_range z.
Proof.
  unfold U32.in_rangeb, U32.in_range.
  rewrite andb_true_iff, Z.leb_le, Z.ltb_lt. tauto.
Qed.

Lemma u32_wrap_small z : U32.in_range z -> U32.wrap z = z.
Proof. intros H. apply Z.mod_small. exact H. Qed.

Lemma u32_sub_range a b : U32.in_range (U32.sub a b).
Proof. apply Z.mod_pos_bound. reflexivity. Qed.

Lemma u32_sub_no_borrow a b :
  0 <= b <= a -> a < U32.modulus -> U32.sub a b = a - b.
Proof.
  intros H1 H2. unfold U32.sub. apply u32_wrap_small.
  unfold U32.in_range. lia.
Qed.


Lemma u32_max_zero z : 0 <= z -> U32.max 0 z = z.
Proof. intros H. unfold U32.max. destruct (Z.ltb_spec 0 z); lia. Qed.

(** [max] against an unsigned zero is the identity: [duration] is the
    wrapped difference. *)
Lemma duration_wrapped b tm : duration b tm = U32.sub tm (_last_change_tm b).
Proof.
  unfold duration. apply u32_max_zero.
  destruct (u32_sub_range tm (_last_change_tm b)) as [H _]. exact H.
Qed.

Lemma duration_elapsed b tm :
  0 <= _last_change_tm b <= tm -> tm < U32.modulus ->
  duration b tm = tm - _last_change_tm b.
Proof. intros. rewrite duration_wrapped. now apply u32_sub_no_borrow. Qed.

(** ** Records and readings *)

(** Splits on every test left in the goal. *)
Ltac case_tests :=
  repeat match goal with
    | |- context [if ?c then _ else _] => destruct c
    end.

Lemma set_state_same b : set_state (_state b) b = b.
Proof. destruct b; reflexivity. Qed.

Lemma eqb_false_neq (x y : bool) : Bool.eqb x y = false <-> x <> y.
Proof. destruct x, y; simpl; split; congruence. Qed.

Lemma normalize_default r : normalize true r = r.
Proof. reflexivity. Qed.

Lemma normalize_involutive p r : normalize (negb p) (negb r) = normalize p r.
Proof. destruct p, r; reflexivity. Qed.

(** The three ways through [update], by the tests the source makes. *)
Lemma update_raw_change b reading tm :
  _prev_reading b <> normalize (_pressed_state b) reading ->
  update b reading tm
  = (NONE, restart_debounce b (normalize (_pressed_state b) reading) tm).
Proof.
  intros H. unfold update.
  apply eqb_false_neq in H. rewrite H. reflexivity.
Qed.

Lemma update_bouncing b reading tm :
  _prev_reading b = normalize (_pressed_state b) reading ->
  _debounced_reading b <> normalize (_pressed_state b) reading ->
  U32.sub tm (_last_reading_change_tm b) < DEBOUNCE_MS ->
  update b reading tm = (NONE, b).
Proof.
  intros Hp Hd Hlt. unfold update.
  rewrite <- Hp, eqb_reflx. simpl.
  rewrite <- Hp in Hd. apply eqb_false_neq in Hd. rewrite Hd. simpl.
  apply Z.ltb_lt in Hlt. rewrite Hlt. reflexivity.
Qed.

Lemma update_accepted b reading tm :
  _prev_reading b = normalize (_pressed_state b) reading ->
  _debounced_reading b <> normalize (_pressed_state b) reading ->
  DEBOUNCE_MS <= U32.sub tm (_last_reading_change_tm b) ->
  update b reading tm
  = (snd (change_table (_state b)),
     accept_change b (normalize (_pressed_state b) reading) tm).
Proof.
  intros Hp Hd Hge. unfold update.
  rewrite <- Hp, eqb_reflx. simpl.
  rewrite <- Hp in Hd. apply eqb_false_neq in Hd. rewrite Hd. simpl.
  apply Z.ltb_ge in Hge. rewrite Hge.
  unfold accept_change. destruct (_state b); reflexivity.
Qed.

Lemma update_dwell b reading tm :
  _prev_reading b = normalize (_pressed_state b) reading ->
  _debounced_reading b = normalize (_pressed_state b) reading ->
  update b reading tm
  = (snd (duration_table (_state b) (duration b tm)),
     set_state (fst (duration_table (_state b) (duration b tm))) b).
Proof.
  intros Hp Hd. unfold update.
  rewrite <- Hp, eqb_reflx. simpl.
  rewrite <- Hp in Hd. rewrite Hd, eqb_reflx. simpl.
  unfold duration_table.
  destruct (_state b) eqn:E;
    case_tests; simpl; rewrite <- ?E, ?set_state_same; reflexivity.
Qed.

(** ** The branches of [update] *)

(** Claim C1.  A call that accepts a debounced change (the normalized
    reading equals the previous one, differs from the debounced one and
    has lasted [DEBOUNCE_MS] or more) advances the gesture state by the
    row of the change-driven table and returns what the row emits; it
    stores the new debounced reading, moves the old [_last_change_tm]
    into [_prev_last_change_tm] and stamps [_last_change_tm] with the
    time of the call. *)
Theorem accepted_change_advances (b : t) (reading : bool) (tm : Z) :
  _prev_reading b = normalize (_pressed_state b) reading ->
  _debounced_reading b <> normalize (_pressed_state b) reading ->
  DEBOUNCE_MS <= U32.sub tm (_last_reading_change_tm b) ->
  let input := fst (update b reading tm) in
  let b' := snd (update b reading tm) in
  match _state b with
  | IDLE => _state b' = PRESSED_PENDING /\ input = NONE
  | PRESSED_PENDING => _state b' = CLICKED_PENDING /\ input = NONE
  | PRESSED => _state b' = IDLE /\ input = RELEASE
  | CLICKED_PENDING => _state b' = CLICKED_PRESSED_PENDING /\ input = NONE
  | CLICKED_PRESSED_PENDING =>
      _state b' = DOUBLE_CLICKED_PENDING /\ input = NONE
  | DOUBLE_CLICKED_PENDING =>
      _state b' = DOUBLE_CLICKED_PRESSED_PENDING /\ input = NONE
  | DOUBLE_CLICKED_PRESSED_PENDING =>
      _state b' = CLICKED_PENDING /\ input = DOUBLE_CLICK
  end
  /\ (_state b', input) = change_table (_state b)
  /\ _debounced_reading b' = normalize (_pressed_state b) reading
  /\ _prev_last_change_tm b' = _last_change_tm b
  /\ _last_change_tm b' = tm
  /\ _pressed_state b' = _pressed_state b
  /\ _prev_reading b' = _prev_reading b
  /\ _last_reading_change_tm b' = _last_reading_change_tm b.
Proof.
  intros Hp Hd Hge. cbv zeta.
  rewrite (update_accepted b reading tm Hp Hd Hge). simpl.
  destruct (_state b); simpl; repeat split; reflexivity.
Qed.

Lemma accepted_change_advances_witness :
  _state (snd (update (final (DebouncedButton true) [(true, 0)]) true 20))
  = PRESSED_PENDING
  /\ _last_change_tm
       (snd (update (final (DebouncedButton true) [(true, 0)]) true 20))
     = 20.
Proof.
  destruct (accepted_change_advances
              (final (DebouncedButton true) [(true, 0)]) true 20)
    as [[Hst _] (_ & _ & _ & Htm & _)].
  - reflexivity.
  - discriminate.
  - vm_compute. discriminate.
  - split; [exact Hst | exact Htm].
Defined.

(** Claim C2.  A call whose normalized reading equals both the previous
    and the debounced reading fires the duration-driven transition of
    its state exactly on the stated comparison: [CLICKED_PENDING]
    returns [CLICK] and becomes [IDLE] iff [duration(tm) >
    DOUBLE_CLICK_TIMEOUT_MS]; [PRESSED_PENDING] ([LONG_PRESS], to
    [PRESSED]), [CLICKED_PRESSED_PENDING] ([CLICK_AND_LONG_PRESS], to
    [PRESSED]), [DOUBLE_CLICKED_PENDING] ([DOUBLE_CLICK], to [IDLE]) and
    [DOUBLE_CLICKED_PRESSED_PENDING] ([DOUBLE_CLICK_AND_LONG_PRESS], to
    [PRESSED]) fire iff [duration(tm) >= CLICKED_CUTOFF_MS]; both
    constants are 150.  A state that does not fire, and [IDLE] and
    [PRESSED] always, return [NONE] and keep the state.  No other
    member is written in this branch. *)
Theorem dwell_transitions (b : t) (reading : bool) (tm : Z) :
  _prev_reading b = normalize (_pressed_state b) reading ->
  _debounced_reading b = normalize (_pressed_state b) reading ->
  let d := duration b tm in
  let input := fst (update b reading tm) in
  let b' := snd (update b reading tm) in
  DOUBLE_CLICK_TIMEOUT_MS = 150 /\ CLICKED_CUTOFF_MS = 150 /\
  match _state b with
  | CLICKED_PENDING =>
      (input = CLICK /\ _state b' = IDLE <-> DOUBLE_CLICK_TIMEOUT_MS < d)
      /\ (input = NONE /\ _state b' = CLICKED_PENDING
          <-> ~ DOUBLE_CLICK_TIMEOUT_MS < d)
  | PRESSED_PENDING =>
      (input = LONG_PRESS /\ _state b' = PRESSED <-> CLICKED_CUTOFF_MS <= d)
      /\ (input = NONE /\ _state b' = PRESSED_PENDING
          <-> ~ CLICKED_CUTOFF_MS <= d)
  | CLICKED_PRESSED_PENDING =>
      (input = CLICK_AND_LONG_PRESS /\ _state b' = PRESSED
       <-> CLICKED_CUTOFF_MS <= d)
      /\ (input = NONE /\ _state b' = CLICKED_PRESSED_PENDING
          <-> ~ CLICKED_CUTOFF_MS <= d)
  | DOUBLE_CLICKED_PENDING =>
      (input = DOUBLE_CLICK /\ _state b' = IDLE <-> CLICKED_CUTOFF_MS <= d)
      /\ (input = NONE /\ _state b' = DOUBLE_CLICKED_PENDING
          <-> ~ CLICKED_CUTOFF_MS <= d)
  | DOUBLE_CLICKED_PRESSED_PENDING =>
      (input = DOUBLE_CLICK_AND_LONG_PRESS /\ _state b' = PRESSED
       <-> CLICKED_CUTOFF_MS <= d)
      /\ (input = NONE /\ _state b' = DOUBLE_CLICKED_PRESSED_PENDING
          <-> ~ CLICKED_CUTOFF_MS <= d)
  | IDLE => input = NONE /\ _state b' = IDLE
  | PRESSED => input = NONE /\ _state b' = PRESSED
  end
  /\ _pressed_state b' = _pressed_state b
  /\ _prev_reading b' = _prev_reading b
  /\ _debounced_reading b' = _debounced_reading b
  /\ _last_reading_change_tm b' = _last_reading_change_tm b
  /\ _last_change_tm b' = _last_change_tm b
  /\ _prev_last_change_tm b' = _prev_last_change_tm b.
Proof.
  intros Hp Hd. cbv zeta.
  rewrite (update_dwell b reading tm Hp Hd).
  split; [reflexivity | split; [reflexivity |]].
  split; [| simpl; repeat split; reflexivity].
  unfold duration_table.
  destruct (_state b) eqn:E; simpl;
    try (split; reflexivity);
    match goal with
    | |- context [if ?c then _ else _] => destruct c eqn:C
    end; simpl;
    first [apply Z.ltb_lt in C | apply Z.ltb_ge in C
          | apply Z.leb_le in C | apply Z.leb_gt in C];
    (split; split;
     first
       [ solve [intros [Hin Hst];
                first [discriminate Hin | discriminate Hst | lia]]
       | solve [intros H; first [split; reflexivity | lia]] ]).
Qed.

Lemma dwell_transitions_witness :
  fst (update
         (final (DebouncedButton true)
            [(true, 0); (true, 20); (false, 160); (false, 180)])
         false 331)
  = CLICK
  /\ _state
       (snd (update
               (final (DebouncedButton true)
                  [(true, 0); (true, 20); (false, 160); (false, 180)])
               false 331))
     = IDLE.
Proof.
  destruct (dwell_transitions
              (final (DebouncedButton true)
                 [(true, 0); (true, 20); (false, 160); (false, 180)])
              false 331) as (_ & _ & [[_ Hfire] _] & _).
  - reflexivity.
  - reflexivity.
  - apply Hfire. vm_compute. reflexivity.
Defined.

(** Claim C4.  A call whose normalized reading differs from the previous
    one returns [NONE], stamps [_last_reading_change_tm] with the time
    of the call, stores the normalized reading in [_prev_reading] and
    leaves every other member as it was. *)
Theorem raw_change_restarts_debounce (b : t) (reading : bool) (tm : Z) :
  _prev_reading b <> normalize (_pressed_state b) reading ->
  let b' := snd (update b reading tm) in
  fst (update b reading tm) = NONE
  /\ _last_reading_change_tm b' = tm
  /\ _prev_reading b' = normalize (_pressed_state b) reading
  /\ _state b' = _state b
  /\ _debounced_reading b' = _debounced_reading b
  /\ _last_change_tm b' = _last_change_tm b
  /\ _prev_last_change_tm b' = _prev_last_change_tm b
  /\ _pressed_state b' = _pressed_state b.
Proof.
  intros H. cbv zeta. rewrite (update_raw_change b reading tm H).
  simpl. repeat split; reflexivity.
Qed.

Lemma raw_change_restarts_debounce_witness :
  fst (update (DebouncedButton true) true 7) = NONE
  /\ _last_reading_change_tm (snd (update (DebouncedButton true) true 7)) = 7.
Proof.
  destruct (raw_change_restarts_debounce (DebouncedButton true) true 7)
    as (Hin & Htm & _).
  - discriminate.
  - split; [exact Hin | exact Htm].
Defined.

(** ** The relation and the function *)

Lemma update_Step b reading tm :
  Step b reading tm (fst (update b reading tm)) (snd (update b reading tm)).
Proof.
  destruct (bool_dec (_prev_reading b) (normalize (_pressed_state b) reading))
    as [Hp | Hp].
  - destruct (bool_dec (_debounced_reading b)
                (normalize (_pressed_state b) reading)) as [Hd | Hd].
    + rewrite (update_dwell _ _ _ Hp Hd). simpl.
      eapply Step_dwell; eauto.
    + destruct (Z_lt_le_dec (U32.sub tm (_last_reading_change_tm b))
                  DEBOUNCE_MS) as [Hlt | Hge].
      * rewrite (update_bouncing _ _ _ Hp Hd Hlt). simpl.
        eapply Step_bouncing; eauto.
      * rewrite (update_accepted _ _ _ Hp Hd Hge). simpl.
        eapply Step_accepted; eauto.
  - rewrite (update_raw_change _ _ _ Hp). simpl.
    eapply Step_raw_change; eauto.
Qed.

Lemma Step_update b reading tm input b' :
  Step b reading tm input b' -> update b reading tm = (input, b').
Proof.
  intros H. destruct H; subst n.
  - now apply update_raw_change.
  - now apply update_bouncing.
  - now apply update_accepted.
  - now apply update_dwell.
Qed.

Lemma Step_deterministic b reading tm input1 b1 input2 b2 :
  Step b reading tm input1 b1 -> Step b reading tm input2 b2 ->
  input1 = input2 /\ b1 = b2.
Proof.
  intros H1 H2. apply Step_update in H1, H2.
  rewrite H1 in H2. inversion H2. split; reflexivity.
Qed.

Lemma run_Replay script : forall b,
  Replay b script (outputs b script) (final b script).
Proof.
  unfold outputs, final.
  induction script as [| [reading tm] rest IH]; intros b; simpl.
  - constructor.
  - pose proof (update_Step b reading tm) as Hs.
    destruct (update b reading tm) as [input b1]. simpl in Hs.
    specialize (IH b1). destruct (run b1 rest) as [inputs b2].
    simpl in *. econstructor; eassumption.
Qed.

Lemma Replay_run b script inputs b' :
  Replay b script inputs b' -> run b script = (inputs, b').
Proof.
  induction 1 as [| b reading tm input b1 rest inputs b2 Hs _ IH]; simpl.
  - reflexivity.
  - rewrite (Step_update _ _ _ _ _ Hs), IH. reflexivity.
Qed.

(** ** Running a script *)

Lemma run_app s1 : forall b s2,
  run b (s1 ++ s2)
  = (outputs b s1 ++ outputs (final b s1) s2, final (final b s1) s2).
Proof.
  unfold outputs, final.
  induction s1 as [| [reading tm] rest IH]; intros b s2; simpl.
  - destruct (run b s2); reflexivity.
  - destruct (update b reading tm) as [input b1].
    rewrite IH. destruct (run b1 rest) as [inputs b2]. reflexivity.
Qed.

Lemma outputs_app b s1 s2 :
  outputs b (s1 ++ s2) = outputs b s1 ++ outputs (final b s1) s2.
Proof. unfold outputs at 1. rewrite run_app. reflexivity. Qed.

Lemma final_app b s1 s2 : final b (s1 ++ s2) = final (final b s1) s2.
Proof. unfold final at 1. rewrite run_app. reflexivity. Qed.

Lemma final_snoc b s reading tm :
  final b (s ++ [(reading, tm)]) = snd (update (final b s) reading tm).
Proof.
  rewrite final_app. unfold final at 1. simpl.
  destruct (update (final b s) reading tm). reflexivity.
Qed.

Lemma outputs_cons b reading tm rest :
  outputs b ((reading, tm) :: rest)
  = fst (update b reading tm) :: outputs (snd (update b reading tm)) rest.
Proof.
  unfold outputs. simpl. destruct (update b reading tm) as [input b1].
  simpl. destruct (run b1 rest). reflexivity.
Qed.

Lemma final_cons b reading tm rest :
  final b ((reading, tm) :: rest) = final (snd (update b reading tm)) rest.
Proof.
  unfold final. simpl. destruct (update b reading tm) as [input b1].
  simpl. destruct (run b1 rest). reflexivity.
Qed.

Lemma update_pressed_state b reading tm :
  _pressed_state (snd (update b reading tm)) = _pressed_state b.
Proof.
  pose proof (update_Step b reading tm) as H.
  destruct H; simpl; try reflexivity.
Qed.

Lemma final_pressed_state script : forall b,
  _pressed_state (final b script) = _pressed_state b.
Proof.
  induction script as [| [reading tm] rest IH]; intros b.
  - reflexivity.
  - rewrite final_cons, IH. apply update_pressed_state.
Qed.

(** Claim C8.  A call has one outcome, fixed by the instance and the
    two arguments; replaying one script against two instances freshly
    constructed with the same polarity gives the same list of returned
    [Input] values and the same final instance, which are those the
    function computes.  The timestamps need not even be ordered. *)
Theorem replay_deterministic
  (pressed_state : bool) (script : list call)
  (inputs1 inputs2 : list Input) (b1 b2 : t) :
  Replay (DebouncedButton pressed_state) script inputs1 b1 ->
  Replay (DebouncedButton pressed_state) script inputs2 b2 ->
  inputs1 = inputs2 /\ b1 = b2
  /\ run (DebouncedButton pressed_state) script = (inputs1, b1).
Proof.
  intros H1 H2.
  pose proof (Replay_run _ _ _ _ H1) as E1.
  pose proof (Replay_run _ _ _ _ H2) as E2.
  rewrite E1 in E2. injection E2 as Hin Hb.
  repeat split; assumption.
Qed.

Lemma replay_deterministic_witness :
  outputs (DebouncedButton true) [(true, 0); (true, 20); (true, 170)]
  = [NONE; NONE; LONG_PRESS].
Proof.
  destruct (replay_deterministic true [(true, 0); (true, 20); (true, 170)]
              (outputs (DebouncedButton true)
                 [(true, 0); (true, 20); (true, 170)])
              [NONE; NONE; LONG_PRESS]
              (final (DebouncedButton true)
                 [(true, 0); (true, 20); (true, 170)])
              (final (DebouncedButton true)
                 [(true, 0); (true, 20); (true, 170)]))
    as (Hin & _ & _).
  - apply run_Replay.
  - apply (run_Replay [(true, 0); (true, 20); (true, 170)]).
  - exact Hin.
Defined.

(** ** Gesture state and debounced reading *)

Lemma update_held b reading tm :
  _debounced_reading b = held (_state b) ->
  _debounced_reading (snd (update b reading tm))
  = held (_state (snd (update b reading tm))).
Proof.
  intros Hinv. pose proof (update_Step b reading tm) as Hs.
  destruct Hs as [n Hn Hp | n Hn Hp Hd Hlt | n Hn Hp Hd Hge | n Hn Hp Hd];
    simpl; try exact Hinv.
  - (* accepted: the reading flips and the table moves to the other family *)
    destruct n, (_debounced_reading b), (_state b);
      simpl in *; congruence.
  - (* dwell: the table stays within the family *)
    rewrite Hinv. unfold duration_table.
    destruct (_state b); simpl;
      case_tests; reflexivity.
Qed.

Lemma final_held script : forall b,
  _debounced_reading b = held (_state b) ->
  _debounced_reading (final b script) = held (_state (final b script)).
Proof.
  induction script as [| [reading tm] rest IH]; intros b Hinv.
  - exact Hinv.
  - rewrite final_cons. apply IH. now apply update_held.
Qed.

(** Claim C9.  In every state reached from a fresh instance, of either
    polarity, by any script of calls, [_debounced_reading] is true
    exactly in the states [PRESSED], [PRESSED_PENDING],
    [CLICKED_PRESSED_PENDING] and [DOUBLE_CLICKED_PRESSED_PENDING], and
    false exactly in [IDLE], [CLICKED_PENDING] and
    [DOUBLE_CLICKED_PENDING]. *)
Theorem state_agrees_with_debounced_reading
  (pressed_state : bool) (script : list call) :
  let b := final (DebouncedButton pressed_state) script in
  (_debounced_reading b = true <->
     _state b = PRESSED \/ _state b = PRESSED_PENDING
     \/ _state b = CLICKED_PRESSED_PENDING
     \/ _state b = DOUBLE_CLICKED_PRESSED_PENDING)
  /\ (_debounced_reading b = false <->
     _state b = IDLE \/ _state b = CLICKED_PENDING
     \/ _state b = DOUBLE_CLICKED_PENDING).
Proof.
  cbv zeta.
  pose proof (final_held script (DebouncedButton pressed_state) eq_refl) as H.
  rewrite H.
  destruct (_state (final (DebouncedButton pressed_state) script)); simpl;
    split; split; intros H';
    repeat match goal with
      | H : _ \/ _ |- _ => destruct H
      end; try discriminate; auto 6.
Qed.

(** ** The accessors *)

(** Claim C10.  On an instance constructed with [pressed_state = false]
    the debounced reading is kept normalized while [state()] compares
    it with [_pressed_state]: after any script [state()] is the negation
    of the debounced reading; it is true on the fresh instance; across a
    call that accepts a debounced press it goes from true to false. *)
Theorem inverted_state_is_negated
  (script : list call) (reading : bool) (tm : Z) :
  let b := final (DebouncedButton false) script in
  let b' := snd (update b reading tm) in
  state (DebouncedButton false) = true
  /\ state b = negb (_debounced_reading b)
  /\ state b = negb (held (_state b))
  /\ (_debounced_reading b = false -> _debounced_reading b' = true ->
      state b = true /\ state b' = false).
Proof.
  cbv zeta. set (b := final (DebouncedButton false) script).
  assert (Hb : _pressed_state b = false)
    by (unfold b; now rewrite final_pressed_state).
  assert (Hb' : _pressed_state (snd (update b reading tm)) = false)
    by (now rewrite update_pressed_state).
  assert (Hh : _debounced_reading b = held (_state b))
    by (unfold b; now apply final_held).
  unfold state. rewrite Hb, Hb', <- Hh.
  split; [reflexivity |].
  split; [destruct (_debounced_reading b); reflexivity |].
  split; [destruct (_debounced_reading b); reflexivity |].
  intros H0 H1. rewrite H0, H1. split; reflexivity.
Qed.

Lemma inverted_state_is_negated_witness :
  state (final (DebouncedButton false) [(false, 0)]) = true
  /\ state (snd (update (final (DebouncedButton false) [(false, 0)]) false 20))
     = false.
Proof.
  destruct (inverted_state_is_negated [(false, 0)] false 20)
    as (_ & _ & _ & H).
  apply H; reflexivity.
Defined.


(** Claim C5.  The header documents [duration(tm)] as 0 when [tm] is
    earlier than the last debounced change.  After [update(true, 80)]
    and [update(true, 100)] on a fresh instance the last change is at
    100, and [duration(50)] is 2^32 - 50: the subtraction has wrapped
    and [max] against an unsigned zero returns it as it is. *)
Theorem duration_wraps_before_last_change :
  _last_change_tm (final (DebouncedButton true) [(true, 80); (true, 100)])
  = 100
  /\ duration (final (DebouncedButton true) [(true, 80); (true, 100)]) 50
     = 4294967246
  /\ duration (final (DebouncedButton true) [(true, 80); (true, 100)]) 50
     <> 0.
Proof. repeat split. vm_compute. discriminate. Qed.

(** ** Polarity *)

Lemma update_flip_polarity b reading tm :
  update (flip_polarity b) (negb reading) tm
  = (fst (update b reading tm), flip_polarity (snd (update b reading tm))).
Proof.
  unfold update. simpl. rewrite normalize_involutive.
  set (n := normalize (_pressed_state b) reading).
  destruct (Bool.eqb (_prev_reading b) n); simpl; [| reflexivity].
  destruct (Bool.eqb (_debounced_reading b) n); simpl.
  - unfold duration. simpl.
    destruct (_state b); simpl;
      case_tests; reflexivity.
  - destruct (U32.sub tm (_last_reading_change_tm b) <? DEBOUNCE_MS);
      [reflexivity |].
    destruct (_state b); reflexivity.
Qed.

(** From instances that differ in polarity alone, a script and its
    inversion return the same inputs. *)
Lemma outputs_flip_polarity script : forall b,
  outputs (flip_polarity b) (invert script) = outputs b script.
Proof.
  induction script as [| [reading tm] rest IH]; intros b.
  - reflexivity.
  - simpl. rewrite !outputs_cons, update_flip_polarity. simpl.
    rewrite IH. reflexivity.
Qed.

(** The constructor does not build such a pair: the two fresh
    instances differ in [_prev_reading] as well. *)
Lemma constructor_seeds_differ :
  _prev_reading (DebouncedButton false) = true
  /\ _prev_reading (flip_polarity (DebouncedButton true)) = false.
Proof. split; reflexivity. Qed.

(** Claim C6.  The script [update(true, 20); update(true, 170)] on a
    default instance returns [NONE; NONE]; the inverted script on an
    instance constructed with [pressed_state = false] returns
    [NONE; LONG_PRESS].  The constructor's [_prev_reading =
    !pressed_state] is the raw released level, while [update] compares
    [_prev_reading] with normalized readings: the inverted instance
    starts as if a press had been seen at time 0. *)
Theorem polarity_inversion_diverges :
  outputs (DebouncedButton true) [(true, 20); (true, 170)] = [NONE; NONE]
  /\ outputs (DebouncedButton false) (invert [(true, 20); (true, 170)])
     = [NONE; LONG_PRESS].
Proof. split; reflexivity. Qed.

(** ** The single-click script *)

Lemma polls_idle tms : forall b,
  _state b = IDLE -> _prev_reading b = false -> _debounced_reading b = false ->
  _pressed_state b = true ->
  outputs b (polls tms) = map (fun _ => NONE) tms.
Proof.
  induction tms as [| tm rest IH]; intros b Hst Hp Hd Hpol.
  - reflexivity.
  - simpl. rewrite outputs_cons.
    assert (Hu : update b false tm = (NONE, b)).
    { rewrite update_dwell by (rewrite Hpol; simpl; assumption).
      rewrite Hst. simpl. rewrite <- Hst, set_state_same. reflexivity. }
    rewrite Hu. simpl. f_equal. now apply IH.
Qed.

Lemma polls_clicked_pending tms : forall b,
  _state b = CLICKED_PENDING -> _prev_reading b = false ->
  _debounced_reading b = false -> _pressed_state b = true ->
  _last_change_tm b = 180 ->
  after_release tms = true ->
  outputs b (polls tms) = click_delivery tms.
Proof.
  induction tms as [| tm rest IH]; intros b Hst Hp Hd Hpol Hlc Hafter.
  - reflexivity.
  - simpl in Hafter. apply andb_true_iff in Hafter as [Htm Hafter].
    apply andb_true_iff in Htm as [Hlo Hhi].
    apply Z.leb_le in Hlo. apply Z.ltb_lt in Hhi.
    simpl polls. rewrite outputs_cons.
    rewrite update_dwell by (rewrite Hpol; simpl; assumption).
    rewrite Hst, duration_elapsed by (rewrite ?Hlc; lia).
    rewrite Hlc. simpl click_delivery.
    unfold duration_table, DOUBLE_CLICK_TIMEOUT_MS.
    destruct (Z.ltb_spec 150 (tm - 180)), (Z.ltb_spec 330 tm);
      try lia; simpl.
    + f_equal. apply polls_idle; simpl; first [reflexivity | assumption].
    + f_equal. rewrite <- Hst, set_state_same. now apply IH.
Qed.

(** Claim C7, as amended.  After [update(true, 0)], [update(true, 20)],
    [update(false, 160)], [update(false, 180)] on a fresh default
    instance, polls of the released button at times from 180 on return
    [CLICK] exactly once: at the first poll whose timestamp exceeds
    330, that is 180 + [DOUBLE_CLICK_TIMEOUT_MS]; every poll before it
    and every poll after it returns [NONE]. *)
Theorem click_at_first_poll_after_330 (tms : list Z) :
  after_release tms = true ->
  outputs (DebouncedButton true) (press_and_release ++ polls tms)
  = [NONE; NONE; NONE; NONE] ++ click_delivery tms.
Proof.
  intros Hafter. rewrite outputs_app. f_equal.
  apply polls_clicked_pending; try reflexivity. exact Hafter.
Qed.

Lemma click_at_first_poll_after_330_witness :
  outputs (DebouncedButton true)
    (press_and_release ++ polls [200; 330; 351; 400])
  = [NONE; NONE; NONE; NONE; NONE; NONE; CLICK; NONE].
Proof.
  apply (click_at_first_poll_after_330 [200; 330; 351; 400]).
  reflexivity.
Defined.

(** Claim C7, as stated, fails: with polls at 331 and 351 the click is
    returned at 331, twenty milliseconds before the stated call. *)
Lemma click_before_351 : ~ click_exactly_at_351.
Proof.
  intros H.
  specialize (H [331; 351] eq_refl 0%nat 331 eq_refl).
  destruct H as [H _]. specialize (H eq_refl). discriminate H.
Qed.

(** ** The debounce window *)

(** Only the accepting branch writes [_debounced_reading]. *)
Lemma debounced_reading_guard b reading tm :
  _debounced_reading (snd (update b reading tm)) <> _debounced_reading b ->
  _prev_reading b = normalize (_pressed_state b) reading
  /\ DEBOUNCE_MS <= U32.sub tm (_last_reading_change_tm b)
  /\ snd (update b reading tm)
     = accept_change b (normalize (_pressed_state b) reading) tm.
Proof.
  intros Hne. pose proof (update_Step b reading tm) as Hs.
  destruct Hs as [n Hn Hp | n Hn Hp Hd Hlt | n Hn Hp Hd Hge | n Hn Hp Hd];
    simpl in Hne; try congruence.
  subst n. repeat split; assumption.
Qed.

Lemma last_of_stretch {A} (l1 l2 l' : list A) (x s : A) :
  l1 ++ x :: l2 = l' ++ [s] -> In s (x :: l2).
Proof.
  revert l1 x l'. induction l2 as [| y l2 IH]; intros l1 x l' H.
  - apply app_inj_tail in H as [_ H]. left. exact H.
  - right. apply (IH (l1 ++ [x]) y l'). rewrite <- app_assoc. exact H.
Qed.

Lemma normalized_default script : normalized true script = script.
Proof.
  unfold normalized. induction script as [| [r tm] rest IH]; simpl.
  - reflexivity.
  - now rewrite IH.
Qed.

(** A raw change opens a stretch; a repeated level extends the stretch
    under way. *)
Lemma constant_since_change h level t0 n tm :
  constant_since h level t0 -> level <> n ->
  constant_since (h ++ [(n, tm)]) n tm.
Proof.
  intros (before & after & Hh & Hall & _) Hne.
  exists h, []. repeat split; [constructor |].
  intros before' s Hs. subst h.
  apply last_of_stretch in Hs. destruct Hs as [Hs | Hs].
  - subst s. exact Hne.
  - rewrite Forall_forall in Hall. rewrite (Hall s Hs). exact Hne.
Qed.

Lemma constant_since_extend h level t0 tm :
  constant_since h level t0 ->
  constant_since (h ++ [(level, tm)]) level t0.
Proof.
  intros (before & after & Hh & Hall & Hprev).
  exists before, (after ++ [(level, tm)]). repeat split.
  - subst h. rewrite <- app_assoc. reflexivity.
  - apply Forall_app. split; [exact Hall | repeat constructor].
  - exact Hprev.
Qed.

Lemma constant_since_time h level t0 :
  constant_since h level t0 -> In (level, t0) h.
Proof.
  intros (before & after & Hh & _). subst h.
  apply in_or_app. right. left. reflexivity.
Qed.

(** On a default instance, either no press has been sampled yet and
    nothing has moved, or [_prev_reading] and [_last_reading_change_tm]
    describe the latest stretch of the calls made so far. *)
Lemma default_filter_tracks pre :
  (Forall (fun c : call => fst c = false) pre
   /\ _prev_reading (final (DebouncedButton true) pre) = false
   /\ _debounced_reading (final (DebouncedButton true) pre) = false)
  \/ constant_since pre
       (_prev_reading (final (DebouncedButton true) pre))
       (_last_reading_change_tm (final (DebouncedButton true) pre)).
Proof.
  induction pre as [| [reading tm] pre IH] using rev_ind.
  - left. repeat split. constructor.
  - rewrite final_snoc.
    set (b := final (DebouncedButton true) pre) in *.
    assert (Hpol : _pressed_state b = true)
      by (unfold b; now rewrite final_pressed_state).
    pose proof (update_Step b reading tm) as Hs.
    destruct Hs as [n Hn Hp | n Hn Hp Hd Hlt | n Hn Hp Hd Hge | n Hn Hp Hd];
      rewrite Hpol, normalize_default in Hn; subst n;
      unfold restart_debounce, accept_change, set_state;
      cbn [_prev_reading _last_reading_change_tm _debounced_reading].
    + (* a raw change opens a stretch with this call *)
      right. destruct IH as [(Hall & Hprev & _) | IH].
      * exists pre, []. repeat split; [constructor |].
        intros before' s Hs. rewrite Forall_forall in Hall.
        rewrite (Hall s) by (rewrite Hs; apply in_or_app; right; now left).
        congruence.
      * eapply constant_since_change; eassumption.
    + destruct IH as [(Hall & Hprev & Hdeb) | IH].
      * congruence.
      * right. rewrite <- Hp. now apply constant_since_extend.
    + destruct IH as [(Hall & Hprev & Hdeb) | IH].
      * congruence.
      * right. rewrite <- Hp. now apply constant_since_extend.
    + destruct IH as [(Hall & Hprev & Hdeb) | IH].
      * left. repeat split; try assumption.
        apply Forall_app. split; [exact Hall |].
        constructor; [simpl; congruence | constructor].
      * right. rewrite <- Hp. now apply constant_since_extend.
Qed.

(** ** Ordered timestamps *)

Lemma nondecreasing_from_weaken script : forall lo lo',
  lo' <= lo -> nondecreasing_from lo script = true ->
  nondecreasing_from lo' script = true.
Proof.
  destruct script as [| [r tm] rest]; intros lo lo' Hle H; simpl in *.
  - reflexivity.
  - apply andb_true_iff in H as [H Hrest].
    apply andb_true_iff in H as [Hlo Hhi]. apply Z.leb_le in Hlo.
    rewrite Hrest, Hhi, !andb_true_r. apply Z.leb_le. lia.
Qed.

Lemma nondecreasing_bounds pre : forall lo reading tm post,
  nondecreasing_from lo (pre ++ (reading, tm) :: post) = true ->
  lo <= tm < U32.modulus
  /\ forall c, In c pre -> lo <= snd c <= tm.
Proof.
  induction pre as [| [r0 t0] pre IH]; intros lo reading tm post H;
    simpl in H.
  - apply andb_true_iff in H as [H _].
    apply andb_true_iff in H as [Hlo Hhi].
    apply Z.leb_le in Hlo. apply Z.ltb_lt in Hhi.
    split; [lia | intros c []].
  - apply andb_true_iff in H as [H Hrest].
    apply andb_true_iff in H as [Hlo Hhi]. apply Z.leb_le in Hlo.
    destruct (IH _ _ _ _ Hrest) as [Htm Hin].
    split; [lia |]. intros c [Hc | Hc].
    + subst c. simpl. lia.
    + specialize (Hin c Hc). lia.
Qed.

(** While no press lasts [DEBOUNCE_MS], an idle instance stays idle. *)
Lemma short_presses_quiet script : forall b lo,
  _state b = IDLE -> _debounced_reading b = false ->
  0 <= _last_reading_change_tm b <= lo ->
  nondecreasing_from lo script = true ->
  short_presses_from (_prev_reading b) (_last_reading_change_tm b)
    (normalized (_pressed_state b) script) = true ->
  outputs b script = map (fun _ => NONE) script
  /\ forall pre post, script = pre ++ post ->
       _debounced_reading (final b pre) = false.
Proof.
  induction script as [| [reading tm] rest IH];
    intros b lo Hst Hd Hlrc Hmono Hshort.
  - split; [reflexivity |].
    intros pre post H. symmetry in H. apply app_eq_nil in H as [-> _].
    exact Hd.
  - simpl in Hmono. apply andb_true_iff in Hmono as [Hmono Hrest].
    apply andb_true_iff in Hmono as [Hlo Hhi].
    apply Z.leb_le in Hlo. apply Z.ltb_lt in Hhi.
    simpl in Hshort.
    set (n := normalize (_pressed_state b) reading) in *.
    assert (Hnext : forall b1,
      _state b1 = IDLE -> _debounced_reading b1 = false ->
      0 <= _last_reading_change_tm b1 <= tm ->
      _pressed_state b1 = _pressed_state b ->
      short_presses_from (_prev_reading b1) (_last_reading_change_tm b1)
        (normalized (_pressed_state b) rest) = true ->
      update b reading tm = (NONE, b1) ->
      outputs b ((reading, tm) :: rest)
      = map (fun _ => NONE) ((reading, tm) :: rest)
      /\ forall pre post, (reading, tm) :: rest = pre ++ post ->
           _debounced_reading (final b pre) = false).
    { intros b1 Hst1 Hd1 Hlrc1 Hpol1 Hshort1 Hu.
      rewrite <- Hpol1 in Hshort1.
      destruct (IH b1 tm Hst1 Hd1 Hlrc1 Hrest Hshort1) as [Hout Hpre].
      split.
      - rewrite outputs_cons, Hu. simpl. now rewrite Hout.
      - intros [| c pre] post H.
        + exact Hd.
        + simpl in H. injection H as <- H.
          rewrite final_cons, Hu. simpl. now apply (Hpre pre post). }
    destruct (Bool.eqb (_prev_reading b) n) eqn:Hp.
    + apply eqb_prop in Hp.
      apply andb_true_iff in Hshort as [Hn Hshort].
      destruct n eqn:En.
      * (* a press still inside its debounce window *)
        simpl in Hn. apply Z.ltb_lt in Hn.
        apply (Hnext b); try assumption; try reflexivity; try lia.
        apply update_bouncing; fold n; rewrite ?En; try assumption.
        -- rewrite Hd. discriminate.
        -- rewrite u32_sub_no_borrow by lia. exact Hn.
      * (* the released button polled in [IDLE] *)
        apply (Hnext b); try assumption; try reflexivity; try lia.
        rewrite update_dwell by (fold n; rewrite En; assumption).
        rewrite Hst. simpl. rewrite <- Hst, set_state_same. reflexivity.
    + apply eqb_false_neq in Hp.
      apply (Hnext (restart_debounce b n tm)); simpl;
        try assumption; try reflexivity; try lia.
      now apply update_raw_change.
Qed.

(** Readings that alternate with every gap below [DEBOUNCE_MS] hold no
    press for [DEBOUNCE_MS]; [t0'] is the stretch start the filter
    holds, which matters at the pressed level only. *)
Lemma alternating_from_short_presses script : forall level t0 t0',
  alternating_from level t0 script = true ->
  level = false \/ t0' = t0 ->
  short_presses_from level t0' (normalized true script) = true.
Proof.
  induction script as [| [r tm] rest IH]; intros level t0 t0' Halt Hst.
  - reflexivity.
  - simpl in *. rewrite normalize_default.
    apply andb_true_iff in Halt as [Hgap Halt].
    destruct (Bool.eqb level r) eqn:E.
    + apply eqb_prop in E. subst r.
      rewrite (IH level t0 t0' Halt Hst), andb_true_r.
      destruct Hst as [-> | ->]; [reflexivity |].
      rewrite Hgap. apply orb_true_r.
    + apply (IH r tm tm Halt). right. reflexivity.
Qed.

Lemma alternating_short_presses script :
  alternating script = true -> short_presses script = true.
Proof.
  destruct script as [| [r tm] rest]; intros Halt.
  - reflexivity.
  - unfold short_presses. simpl in *.
    rewrite <- (normalized_default rest). destruct r; simpl.
    + apply (alternating_from_short_presses rest true tm tm Halt).
      right. reflexivity.
    + apply (alternating_from_short_presses rest false tm 0 Halt).
      left. reflexivity.
Qed.

(** Claim C3.  On an instance constructed with [pressed_state = false]
    the first call [update(false, 1000)], a single pressed reading,
    changes [_debounced_reading].  The script [flicker_19ms] alternates
    with every call less than [DEBOUNCE_MS] after the latest raw
    change; a default instance returns [NONE] throughout and keeps the
    debounced reading, the inverted instance fed the inverted readings
    changes it at the first call and returns [LONG_PRESS] at the last.
    The constructor's [_prev_reading = !pressed_state] and
    [_last_reading_change_tm = 0] make the inverted instance start as
    if a press had been sampled at time 0. *)
Theorem inverted_instance_skips_debounce :
  _debounced_reading (DebouncedButton false) = false
  /\ _debounced_reading (snd (update (DebouncedButton false) false 1000))
     = true
  /\ alternating flicker_19ms = true
  /\ nondecreasing flicker_19ms = true
  /\ outputs (DebouncedButton true) flicker_19ms
     = [NONE; NONE; NONE; NONE; NONE; NONE; NONE; NONE; NONE; NONE]
  /\ _debounced_reading (final (DebouncedButton true) flicker_19ms) = false
  /\ outputs (DebouncedButton false) (invert flicker_19ms)
     = [NONE; NONE; NONE; NONE; NONE; NONE; NONE; NONE; NONE; LONG_PRESS].
Proof. repeat split. Qed.

(** X15.  On a default instance, along a script with non-decreasing
    timestamps, a call changes [_debounced_reading] only if the calls
    have kept the reading of this call since a call that changed the
    reading at least [DEBOUNCE_MS] before it.  If no press lasts
    [DEBOUNCE_MS], every call returns [NONE] and [_debounced_reading]
    never changes; that is the case whenever the readings alternate
    with every call less than [DEBOUNCE_MS] after the latest raw
    change. *)
Theorem default_debounce_window (script : list call) :
  nondecreasing script = true ->
  (forall pre reading tm post,
     script = pre ++ (reading, tm) :: post ->
     _debounced_reading
       (snd (update (final (DebouncedButton true) pre) reading tm))
     <> _debounced_reading (final (DebouncedButton true) pre) ->
     exists t0,
       constant_since (pre ++ [(reading, tm)]) reading t0
       /\ t0 + DEBOUNCE_MS <= tm)
  /\ (short_presses script = true ->
      outputs (DebouncedButton true) script = map (fun _ => NONE) script
      /\ forall pre post, script = pre ++ post ->
           _debounced_reading (final (DebouncedButton true) pre) = false)
  /\ (alternating script = true -> short_presses script = true).
Proof.
  intros Hmono. split; [| split].
  - intros pre reading tm post Hscript Hne.
    set (b := final (DebouncedButton true) pre) in *.
    assert (Hpol : _pressed_state b = true)
      by (unfold b; now rewrite final_pressed_state).
    destruct (debounced_reading_guard b reading tm Hne) as (Hp & Hge & Hb').
    rewrite Hpol, normalize_default in Hp, Hb'.
    assert (Hnew : _debounced_reading (snd (update b reading tm)) = reading)
      by (rewrite Hb'; reflexivity).
    destruct (default_filter_tracks pre) as [(_ & Hprev & Hdeb) | Htrack];
      fold b in Hprev, Hdeb || fold b in Htrack.
    + exfalso. apply Hne. congruence.
    + exists (_last_reading_change_tm b). split.
      * rewrite <- Hp. now apply constant_since_extend.
      * subst script.
        apply nondecreasing_bounds in Hmono as [Htm Hpre].
        specialize (Hpre _ (constant_since_time _ _ _ Htrack)).
        simpl in Hpre. rewrite u32_sub_no_borrow in Hge by lia. lia.
  - intros Hshort.
    apply (short_presses_quiet script (DebouncedButton true) 0);
      simpl; try reflexivity; try lia; try assumption.
    rewrite normalized_default. exact Hshort.
  - apply alternating_short_presses.
Qed.

Lemma default_debounce_window_witness :
  outputs (DebouncedButton true)
    [(true, 0); (false, 7); (true, 19); (true, 30); (false, 38); (false, 90)]
  = [NONE; NONE; NONE; NONE; NONE; NONE].
Proof.
  destruct (default_debounce_window
    [(true, 0); (false, 7); (true, 19); (true, 30); (false, 38); (false, 90)])
    as (_ & Hquiet & _).
  - reflexivity.
  - destruct Hquiet as [Hout _]; [reflexivity | exact Hout].
Defined.

(** ** Scripts of the test suite

    The expected inputs of [tests/test_debounced_button.cpp], replayed
    on the embedding. *)

(** [TestInitialState]. *)
Example test_initial_state :
  state (DebouncedButton true) = false
  /\ duration (DebouncedButton true) 0 = 0
  /\ duration (DebouncedButton true) 12345 = 12345
  /\ prev_duration (DebouncedButton true) 0 = 0
  /\ prev_duration (DebouncedButton true) 12345 = 0.
Proof. repeat split. Qed.

(** [TestSinglePressAndRelease]: the click script, then the hold script
    on the same instance. *)
Example test_single_press_and_release :
  outputs (DebouncedButton true)
    ([(true, 0); (true, 20); (false, 140); (false, 160); (false, 311)]
     ++ [(true, 0); (true, 20); (true, 179); (false, 180); (false, 200)])
  = [NONE; NONE; NONE; NONE; CLICK]
    ++ [NONE; NONE; LONG_PRESS; NONE; RELEASE].
Proof. reflexivity. Qed.

(** Two scripts of [TestDoublePressAndRelease], each on a fresh
    instance: two clicks within the double click timeout, and a click
    followed by a long press. *)
Example test_double_click :
  outputs (DebouncedButton true)
    [(true, 0); (true, 20); (false, 160); (false, 180);
     (true, 280); (true, 300); (false, 440); (false, 460); (false, 610)]
  = [NONE; NONE; NONE; NONE; NONE; NONE; NONE; NONE; DOUBLE_CLICK].
Proof. reflexivity. Qed.

Example test_click_press :
  outputs (DebouncedButton true)
    [(true, 0); (true, 20); (false, 160); (false, 180);
     (true, 280); (true, 300); (true, 459); (false, 460); (false, 480)]
  = [NONE; NONE; NONE; NONE; NONE; NONE; CLICK_AND_LONG_PRESS; NONE; RELEASE].
Proof. reflexivity. Qed.

(** * More of the class *)

(** ** The clock may start anywhere *)

Lemma ahead_sub k x y tm tm' :
  ahead k x y -> ahead k tm tm' -> U32.sub tm' y = U32.sub tm x.
Proof.
  unfold ahead, U32.sub, U32.wrap. intros Hxy Htm.
  rewrite Zminus_mod, Hxy, Htm, <- Zminus_mod.
  f_equal. lia.
Qed.

Lemma ahead_shifted k tm : ahead k tm (U32.wrap (tm + k)).
Proof. unfold ahead, U32.wrap. apply Z.mod_mod. discriminate. Qed.

Lemma ahead_same tm : ahead 0 tm tm.
Proof. unfold ahead. now rewrite Z.add_0_r. Qed.

(** One call on the two clocks: the same input, and the instances keep
    tracking each other. *)
Lemma update_tracks k b b' reading tm tm' :
  tracks k b b' -> ahead k tm tm' ->
  fst (update b' reading tm') = fst (update b reading tm)
  /\ tracks k (snd (update b reading tm)) (snd (update b' reading tm')).
Proof.
  intros (Hpol & Hst & Hp & Hd & Hlrc & Hlc) Htm.
  set (n := normalize (_pressed_state b) reading).
  assert (Hn : normalize (_pressed_state b') reading = n)
    by (unfold n; now rewrite Hpol).
  destruct (bool_dec (_prev_reading b) n) as [Ep | Ep].
  - assert (Ep' : _prev_reading b' = normalize (_pressed_state b') reading)
      by congruence.
    destruct (bool_dec (_debounced_reading b) n) as [Ed | Ed].
    + (* both dwell *)
      assert (Ed' : _debounced_reading b'
                    = normalize (_pressed_state b') reading) by congruence.
      rewrite (update_dwell b reading tm Ep Ed).
      rewrite (update_dwell b' reading tm' Ep' Ed').
      rewrite Hst. unfold tracks. simpl.
      destruct (_state b) eqn:E;
        try (simpl; repeat split; try assumption; intros; congruence).
      all: assert (Hdur : duration b' tm' = duration b tm)
        by (rewrite !duration_wrapped; apply (ahead_sub k);
            [apply Hlc; discriminate | exact Htm]).
      all: rewrite Hdur; unfold duration_table; case_tests; simpl;
        repeat split; try assumption; try congruence;
        intros; try congruence; apply Hlc; discriminate.
    + (* both weigh the same debounce period *)
      assert (Ed' : _debounced_reading b'
                    <> normalize (_pressed_state b') reading) by congruence.
      assert (Hrd : U32.sub tm' (_last_reading_change_tm b')
                    = U32.sub tm (_last_reading_change_tm b))
        by (apply (ahead_sub k); [apply Hlrc; congruence | exact Htm]).
      destruct (Z_lt_le_dec (U32.sub tm (_last_reading_change_tm b))
                  DEBOUNCE_MS) as [Hlt | Hge].
      * rewrite (update_bouncing b reading tm Ep Ed Hlt).
        rewrite (update_bouncing b' reading tm' Ep' Ed')
          by (rewrite Hrd; exact Hlt).
        simpl. repeat split; assumption.
      * rewrite (update_accepted b reading tm Ep Ed Hge).
        rewrite (update_accepted b' reading tm' Ep' Ed')
          by (rewrite Hrd; exact Hge).
        rewrite Hst, Hn. unfold tracks. simpl.
        repeat split; try assumption; intros; congruence.
  - (* both see the raw change *)
    assert (Ep' : _prev_reading b' <> normalize (_pressed_state b') reading)
      by congruence.
    rewrite (update_raw_change b reading tm Ep).
    rewrite (update_raw_change b' reading tm' Ep').
    rewrite Hn. unfold tracks. simpl. fold n.
    repeat split; try assumption; intros; auto.
Qed.

Lemma outputs_tracks k script : forall script' b b',
  Forall2 (fun c c' => fst c' = fst c /\ ahead k (snd c) (snd c'))
    script script' ->
  tracks k b b' ->
  outputs b' script' = outputs b script.
Proof.
  induction script as [| [reading tm] rest IH];
    intros script' b b' Hall Htr; inversion Hall as [| c c' l l' Hc Hl];
    subst.
  - reflexivity.
  - destruct c' as [reading' tm']. simpl in Hc. destruct Hc as [-> Htm].
    destruct (update_tracks k b b' reading tm tm' Htr Htm) as [Hin Htr'].
    rewrite !outputs_cons, Hin. f_equal. now apply IH.
Qed.

Lemma shift_related k script :
  Forall2 (fun c c' => fst c' = fst c /\ ahead k (snd c) (snd c'))
    script (shift k script).
Proof.
  induction script as [| c rest IH]; simpl; constructor.
  - split; [reflexivity | apply ahead_shifted].
  - exact IH.
Qed.

Lemma same_related (script : list call) :
  Forall2 (fun c c' => fst c' = fst c /\ ahead 0 (snd c) (snd c'))
    script script.
Proof.
  induction script as [| c rest IH]; constructor.
  - split; [reflexivity | apply ahead_same].
  - exact IH.
Qed.

(** X1.  What a default instance returns does not depend on where the
    clock stands: with [k] added to every timestamp, wrapped at 2^32 as
    the caller's counter wraps, a script returns the same inputs. *)
Theorem time_shift_invariance (k : Z) (script : list call) :
  outputs (DebouncedButton true) (shift k script)
  = outputs (DebouncedButton true) script.
Proof.
  apply (outputs_tracks k script); [apply shift_related |].
  unfold tracks. simpl. repeat split; intros H; congruence.
Qed.

(** X2.  Polarity inversion does hold for the scripts that begin with
    a released reading or at time 0: on those the inverted instance fed
    the inverted readings returns what the default instance returns. *)
Theorem polarity_inversion_clean_start (script : list call) :
  starts_clean script = true ->
  outputs (DebouncedButton false) (invert script)
  = outputs (DebouncedButton true) script.
Proof.
  destruct script as [| [reading tm] rest]; intros Hclean.
  - reflexivity.
  - simpl invert. rewrite !outputs_cons.
    rewrite <- (outputs_flip_polarity rest).
    assert (H : fst (update (DebouncedButton false) (negb reading) tm)
                = fst (update (DebouncedButton true) reading tm)
                /\ tracks 0
                     (flip_polarity
                        (snd (update (DebouncedButton true) reading tm)))
                     (snd (update (DebouncedButton false) (negb reading) tm))).
    { simpl in Hclean. destruct reading; simpl in Hclean.
      - apply Z.eqb_eq in Hclean. subst tm.
        unfold tracks. simpl. repeat split.
      - unfold tracks. simpl. repeat split; intros H; congruence. }
    destruct H as [Hin Htr]. rewrite Hin. f_equal.
    apply (outputs_tracks 0 (invert rest)); [apply same_related | exact Htr].
Qed.

Lemma polarity_inversion_clean_start_witness :
  outputs (DebouncedButton false)
    (invert [(false, 100); (true, 120); (true, 140); (true, 290)])
  = outputs (DebouncedButton true)
      [(false, 100); (true, 120); (true, 140); (true, 290)].
Proof.
  apply (polarity_inversion_clean_start
           [(false, 100); (true, 120); (true, 140); (true, 290)]).
  reflexivity.
Defined.

(** ** Holds and releases *)

Lemma update_paired b reading tm inputs :
  paired (holding (_state (snd (update b reading tm)))) inputs = true ->
  paired (holding (_state b)) (fst (update b reading tm) :: inputs) = true.
Proof.
  pose proof (update_Step b reading tm) as Hs.
  destruct Hs as [n Hn Hp | n Hn Hp Hd Hlt | n Hn Hp Hd Hge | n Hn Hp Hd];
    simpl; try (intros H; exact H).
  - destruct (_state b); simpl; intros H; exact H.
  - unfold duration_table.
    destruct (_state b); case_tests; simpl; intros H; exact H.
Qed.

Lemma outputs_paired script : forall b,
  paired (holding (_state b)) (outputs b script) = true.
Proof.
  induction script as [| [reading tm] rest IH]; intros b.
  - reflexivity.
  - rewrite outputs_cons. apply update_paired. apply IH.
Qed.

(** X3.  Whatever the script and the polarity, the inputs returned pair
    holds with releases: [RELEASE] is returned only after a long press
    of one of the three kinds with no other input in between; after a
    long press nothing but [RELEASE] is returned next; clicks and
    double clicks come only while no hold is under way. *)
Theorem holds_and_releases_pair (pressed_state : bool) (script : list call) :
  paired false (outputs (DebouncedButton pressed_state) script) = true.
Proof. apply (outputs_paired script (DebouncedButton pressed_state)). Qed.

(** ** Pending states resolve once *)






(** ** Timestamps under an ordered clock *)

Lemma update_times b reading tm hi :
  0 <= _last_reading_change_tm b <= hi ->
  0 <= _prev_last_change_tm b <= _last_change_tm b ->
  _last_change_tm b <= hi ->
  hi <= tm ->
  0 <= _last_reading_change_tm (snd (update b reading tm)) <= tm
  /\ 0 <= _prev_last_change_tm (snd (update b reading tm))
     <= _last_change_tm (snd (update b reading tm))
  /\ _last_change_tm (snd (update b reading tm)) <= tm.
Proof.
  intros Hlrc Hplc Hlc Hhi. pose proof (update_Step b reading tm) as Hs.
  destruct Hs as [n Hn Hp | n Hn Hp Hd Hlt | n Hn Hp Hd Hge | n Hn Hp Hd];
    simpl; lia.
Qed.

Lemma final_times script : forall b lo,
  0 <= _last_reading_change_tm b <= lo ->
  0 <= _prev_last_change_tm b <= _last_change_tm b ->
  _last_change_tm b <= lo ->
  nondecreasing_from lo script = true ->
  0 <= _last_reading_change_tm (final b script) <= last_tm lo script
  /\ 0 <= _prev_last_change_tm (final b script)
     <= _last_change_tm (final b script)
  /\ _last_change_tm (final b script) <= last_tm lo script.
Proof.
  induction script as [| [reading tm] rest IH];
    intros b lo Hlrc Hplc Hlc Hmono.
  - unfold final. simpl. repeat split; lia.
  - simpl in Hmono. apply andb_true_iff in Hmono as [Hmono Hrest].
    apply andb_true_iff in Hmono as [Hlo Hhi].
    apply Z.leb_le in Hlo. apply Z.ltb_lt in Hhi.
    rewrite final_cons. simpl last_tm.
    destruct (update_times b reading tm lo Hlrc Hplc Hlc Hlo)
      as (H1 & H2 & H3).
    destruct (IH _ tm H1 H2 H3 Hrest) as (I1 & I2 & I3).
    repeat split; lia.
Qed.

(** X6.  After a script with non-decreasing timestamps the three stored
    times are ordered and not later than the last call, so the unsigned
    subtractions of the accessors do not wrap: for a time [tm] not
    before the last call, [duration(tm)] is [tm - _last_change_tm] and
    [prev_duration] is [_last_change_tm - _prev_last_change_tm]. *)
Theorem accessors_exact_on_ordered_clock
  (pressed_state : bool) (script : list call) (tm : Z) :
  nondecreasing script = true ->
  last_tm 0 script <= tm < U32.modulus ->
  let b := final (DebouncedButton pressed_state) script in
  0 <= _prev_last_change_tm b <= _last_change_tm b
  /\ _last_change_tm b <= last_tm 0 script
  /\ 0 <= _last_reading_change_tm b <= last_tm 0 script
  /\ duration b tm = tm - _last_change_tm b
  /\ prev_duration b tm = _last_change_tm b - _prev_last_change_tm b.
Proof.
  intros Hmono Htm. cbv zeta.
  destruct (final_times script (DebouncedButton pressed_state) 0)
    as (H1 & H2 & H3); simpl; try lia; try exact Hmono.
  repeat split; try lia.
  - apply duration_elapsed; lia.
  - unfold prev_duration. apply u32_sub_no_borrow; lia.
Qed.

Lemma accessors_exact_on_ordered_clock_witness :
  duration
    (final (DebouncedButton true)
       [(true, 0); (true, 20); (false, 160); (false, 180)]) 200
  = 200 - 180
  /\ prev_duration
       (final (DebouncedButton true)
          [(true, 0); (true, 20); (false, 160); (false, 180)]) 200
     = 180 - 20.
Proof.
  destruct (accessors_exact_on_ordered_clock true
              [(true, 0); (true, 20); (false, 160); (false, 180)] 200)
    as (_ & _ & _ & Hd & Hp).
  - reflexivity.
  - vm_compute. split; [discriminate | reflexivity].
  - split; [exact Hd | exact Hp].
Defined.

(** X7.  Across a call that changes the debounced reading,
    [prev_duration] becomes what [duration] of the call's timestamp was
    just before the call, and [duration] of that timestamp becomes 0. *)
Theorem prev_duration_takes_duration (b : t) (reading : bool) (tm tm' : Z) :
  _debounced_reading (snd (update b reading tm)) <> _debounced_reading b ->
  prev_duration (snd (update b reading tm)) tm' = duration b tm
  /\ duration (snd (update b reading tm)) tm = 0.
Proof.
  intros Hne.
  destruct (debounced_reading_guard b reading tm Hne) as (_ & _ & Hb').
  rewrite Hb', !duration_wrapped. unfold prev_duration. simpl.
  split; [reflexivity |].
  unfold U32.sub. rewrite Z.sub_diag. reflexivity.
Qed.

Lemma prev_duration_takes_duration_witness :
  prev_duration
    (snd (update (final (DebouncedButton true)
                    [(true, 0); (true, 20); (false, 160)]) false 180)) 0
  = 160.
Proof.
  destruct (prev_duration_takes_duration
              (final (DebouncedButton true)
                 [(true, 0); (true, 20); (false, 160)]) false 180 0)
    as [Hp _].
  - discriminate.
  - exact Hp.
Defined.

(** ** What the returned input tells *)

(** X8.  In any state reached from a fresh instance, a call that turns
    the debounced reading to pressed returns [NONE]; a call that turns
    it to released returns [RELEASE] exactly from [PRESSED],
    [DOUBLE_CLICK] exactly from [DOUBLE_CLICKED_PRESSED_PENDING], and
    [NONE] otherwise. *)
Theorem edges_emit
  (pressed_state : bool) (script : list call) (reading : bool) (tm : Z) :
  let b := final (DebouncedButton pressed_state) script in
  let input := fst (update b reading tm) in
  let b' := snd (update b reading tm) in
  _debounced_reading b' <> _debounced_reading b ->
  (_debounced_reading b' = true -> input = NONE)
  /\ (_debounced_reading b' = false ->
      (input = RELEASE <-> _state b = PRESSED)
      /\ (input = DOUBLE_CLICK <-> _state b = DOUBLE_CLICKED_PRESSED_PENDING)
      /\ (input = NONE \/ input = RELEASE \/ input = DOUBLE_CLICK)).
Proof.
  cbv zeta. set (b := final (DebouncedButton pressed_state) script).
  intros Hne.
  assert (Hh : _debounced_reading b = held (_state b))
    by (unfold b; now apply final_held).
  destruct (debounced_reading_guard b reading tm Hne) as (Hp & Hge & Hb').
  assert (Hd : _debounced_reading b <> normalize (_pressed_state b) reading)
    by (intros E; apply Hne; rewrite Hb'; simpl; congruence).
  rewrite (update_accepted b reading tm Hp Hd Hge). simpl.
  rewrite Hh in Hd.
  destruct (normalize (_pressed_state b) reading), (_state b);
    simpl in *; try congruence;
    repeat split; intros; try discriminate; try congruence; auto.
Qed.

Lemma edges_emit_witness :
  fst (update
         (final (DebouncedButton true)
            [(true, 0); (true, 20); (true, 170); (false, 200)]) false 220)
  = RELEASE.
Proof.
  destruct (edges_emit true
              [(true, 0); (true, 20); (true, 170); (false, 200)] false 220)
    as [_ H].
  - discriminate.
  - destruct H as ([_ Hrel] & _); [reflexivity |].
    apply Hrel. reflexivity.
Defined.

(** X9.  In any state reached from a fresh instance, the input a call
    returns tells where the button is left: after a long press of any
    kind the state is [PRESSED] and the debounced reading is pressed;
    after [CLICK] or [RELEASE] the state is [IDLE], after
    [DOUBLE_CLICK] it is [IDLE] or [CLICKED_PENDING], and the debounced
    reading is released. *)
Theorem input_tells_level
  (pressed_state : bool) (script : list call) (reading : bool) (tm : Z) :
  let b := final (DebouncedButton pressed_state) script in
  let b' := snd (update b reading tm) in
  match fst (update b reading tm) with
  | NONE => True
  | CLICK | RELEASE => _state b' = IDLE /\ _debounced_reading b' = false
  | DOUBLE_CLICK =>
      (_state b' = IDLE \/ _state b' = CLICKED_PENDING)
      /\ _debounced_reading b' = false
  | LONG_PRESS | CLICK_AND_LONG_PRESS | DOUBLE_CLICK_AND_LONG_PRESS =>
      _state b' = PRESSED /\ _debounced_reading b' = true
  end.
Proof.
  cbv zeta. set (b := final (DebouncedButton pressed_state) script).
  assert (Hh : _debounced_reading (snd (update b reading tm))
               = held (_state (snd (update b reading tm))))
    by (apply update_held; unfold b; now apply final_held).
  rewrite Hh.
  pose proof (update_Step b reading tm) as Hs.
  destruct Hs as [n Hn Hp | n Hn Hp Hd Hlt | n Hn Hp Hd Hge | n Hn Hp Hd];
    simpl; try exact I.
  - destruct (_state b); simpl; auto.
  - unfold duration_table. destruct (_state b); case_tests; simpl; auto.
Qed.

(** X10.  On a default instance [state()] is, after any script, true
    exactly in the four states in which the button is held. *)
Theorem default_state_is_held (script : list call) :
  state (final (DebouncedButton true) script)
  = held (_state (final (DebouncedButton true) script)).
Proof.
  unfold state. rewrite final_pressed_state. simpl.
  rewrite (final_held script (DebouncedButton true) eq_refl).
  destruct (held _); reflexivity.
Qed.

(** ** Rebasing the durations *)

(** X11.  [reset_duration] leaves [state()] as it is and counts the
    time in the current state from 0: [duration(tm)] is [tm],
    [prev_duration] is 0, and a call that dwells at the debounced level
    weighs [tm] itself against the deadline of the state.  A call that
    sees a raw change or weighs a debounce period returns what it would
    have returned without the reset. *)
Theorem reset_duration_rebases (b : t) (reading : bool) (tm : Z) :
  U32.in_range tm ->
  duration (reset_duration b) tm = tm
  /\ prev_duration (reset_duration b) tm = 0
  /\ state (reset_duration b) = state b
  /\ (_prev_reading b = normalize (_pressed_state b) reading ->
      _debounced_reading b = normalize (_pressed_state b) reading ->
      update (reset_duration b) reading tm
      = (snd (duration_table (_state b) tm),
         set_state (fst (duration_table (_state b) tm)) (reset_duration b)))
  /\ (_prev_reading b <> normalize (_pressed_state b) reading
      \/ _debounced_reading b <> normalize (_pressed_state b) reading ->
      fst (update (reset_duration b) reading tm) = fst (update b reading tm)).
Proof.
  intros Htm.
  assert (Hdur : duration (reset_duration b) tm = tm).
  { rewrite duration_wrapped. simpl. unfold U32.sub.
    rewrite Z.sub_0_r. now apply u32_wrap_small. }
  split; [exact Hdur |].
  split; [reflexivity |].
  split; [reflexivity |].
  split.
  - intros Hp Hd.
    rewrite (update_dwell (reset_duration b) reading tm Hp Hd), Hdur.
    reflexivity.
  - intros Hor.
    destruct (bool_dec (_prev_reading b)
                (normalize (_pressed_state b) reading)) as [Hp | Hp].
    + destruct Hor as [Hp' | Hd]; [contradiction |].
      destruct (Z_lt_le_dec (U32.sub tm (_last_reading_change_tm b))
                  DEBOUNCE_MS) as [Hlt | Hge].
      * rewrite (update_bouncing b reading tm Hp Hd Hlt).
        rewrite (update_bouncing (reset_duration b) reading tm Hp Hd Hlt).
        reflexivity.
      * rewrite (update_accepted b reading tm Hp Hd Hge).
        rewrite (update_accepted (reset_duration b) reading tm Hp Hd Hge).
        reflexivity.
    + rewrite (update_raw_change b reading tm Hp).
      rewrite (update_raw_change (reset_duration b) reading tm Hp).
      reflexivity.
Qed.

Lemma reset_duration_rebases_witness :
  fst (update
         (reset_duration
            (final (DebouncedButton true) [(true, 1000); (true, 1020)]))
         true 1021)
  = LONG_PRESS.
Proof.
  destruct (reset_duration_rebases
              (final (DebouncedButton true) [(true, 1000); (true, 1020)])
              true 1021) as (_ & _ & _ & H & _).
  - vm_compute. split; [discriminate | reflexivity].
  - rewrite H; reflexivity.
Defined.

(** ** Describing an input *)

(** X12.  [describe_input] gives every enumerator of [Input] a label of
    its own, none of them the fallback ["unknown"]; every integer that
    is not the value of an enumerator gets the fallback. *)
Theorem describe_input_labels :
  (forall i j : Input,
     describe_input (Input_value i) = describe_input (Input_value j) ->
     i = j)
  /\ (forall i : Input, describe_input (Input_value i) <> "unknown")
  /\ (forall z : Z, z < 0 \/ 6 < z -> describe_input z = "unknown").
Proof.
  split; [| split].
  - intros i j H. destruct i, j; simpl in H; try reflexivity; discriminate H.
  - intros i. destruct i; discriminate.
  - intros z Hz. destruct z as [| p | p]; try reflexivity; [lia |].
    do 3 (try destruct p as [p | p |]); try reflexivity; lia.
Qed.

Lemma describe_input_labels_witness : describe_input 7 = "unknown".
Proof.
  destruct describe_input_labels as (_ & _ & H).
  apply H. right. reflexivity.
Defined.

(** ** Single samples *)

(** X13.  One sample at the other level, followed by a sample back at
    the debounced level, is never noticed, however far apart the calls
    are: both calls return [NONE] and every later call returns what it
    would have returned without the two. *)
Theorem lone_sample_ignored
  (b : t) (reading : bool) (tm1 tm2 : Z) (rest : list call) :
  _prev_reading b = normalize (_pressed_state b) reading ->
  _debounced_reading b = normalize (_pressed_state b) reading ->
  outputs b ((negb reading, tm1) :: (reading, tm2) :: rest)
  = NONE :: NONE :: outputs b rest.
Proof.
  intros Hp Hd.
  assert (Hn : normalize (_pressed_state b) (negb reading)
               = negb (normalize (_pressed_state b) reading))
    by (destruct (_pressed_state b), reading; reflexivity).
  set (n := normalize (_pressed_state b) reading) in *.
  assert (E1 : update b (negb reading) tm1
               = (NONE, restart_debounce b (negb n) tm1)).
  { rewrite update_raw_change; rewrite Hn;
      [reflexivity | rewrite Hp; apply not_eq_sym, no_fixpoint_negb]. }
  assert (E2 : update (restart_debounce b (negb n) tm1) reading tm2
               = (NONE,
                  restart_debounce (restart_debounce b (negb n) tm1) n tm2)).
  { apply update_raw_change. simpl. apply no_fixpoint_negb. }
  rewrite outputs_cons, E1. cbn [fst snd]. f_equal.
  rewrite outputs_cons, E2. cbn [fst snd]. f_equal.
  apply (outputs_tracks 0 rest); [apply same_related |].
  unfold tracks. simpl.
  repeat split; try (symmetry; assumption).
  - intros H. exfalso. apply H. congruence.
  - intros _ _. apply ahead_same.
Qed.

Lemma lone_sample_ignored_witness :
  outputs (final (DebouncedButton true) [(true, 0); (true, 20)])
    [(false, 100); (true, 160); (true, 170)]
  = [NONE; NONE; LONG_PRESS].
Proof.
  apply (lone_sample_ignored
           (final (DebouncedButton true) [(true, 0); (true, 20)])
           true 100 160 [(true, 170)]); reflexivity.
Defined.

(** X14.  A default instance returns [NONE] from its first two calls,
    whatever their readings and timestamps; an instance of either
    polarity returns [NONE] from its first call. *)
Theorem first_calls_silent
  (reading1 reading2 : bool) (tm1 tm2 : Z) (pressed_state : bool) :
  outputs (DebouncedButton true) [(reading1, tm1); (reading2, tm2)]
  = [NONE; NONE]
  /\ outputs (DebouncedButton pressed_state) [(reading1, tm1)] = [NONE].
Proof.
  split.
  - unfold outputs, run, update.
    destruct reading1, reading2; simpl; case_tests; reflexivity.
  - unfold outputs, run, update.
    destruct pressed_state, reading1; simpl; case_tests; reflexivity.
Qed.
